(** * MediaPreview: the lightbox component of src/components/MediaPreview.tsx

    A shallow embedding of the React component: its props, its three state
    cells, its three effects, the two event handlers, and the values derived
    at render time.  One transition of the embedding is one turn of the
    browser's event loop together with the React commit that follows it. *)

From Stdlib Require Import ZArith List String Ascii Bool Lia.
Import ListNotations.
Open Scope Z_scope.

(** ** The JavaScript operations the component relies on *)

Module JS.

(** [Array.prototype.indexOf] on an array of strings: a left-to-right scan
    with strict equality, [-1] when nothing matches. *)
Fixpoint indexOf_from (i : Z) (xs : list string) (x : string) : Z :=
  match xs with
  | [] => -1
  | y :: ys => if String.eqb y x then i else indexOf_from (i + 1) ys x
  end.

Definition indexOf (xs : list string) (x : string) : Z := indexOf_from 0 xs x.

(** [xs.length]. *)
Definition length (xs : list string) : Z := Z.of_nat (List.length xs).

(** [xs[i]]: [undefined] (here [None]) outside [0 .. length-1]. *)
Definition get (xs : list string) (i : Z) : option string :=
  if i <? 0 then None else nth_error xs (Z.to_nat i).

(** The [%] operator on integers: the remainder takes the sign of the
    dividend. *)
Definition rem (a b : Z) : Z := Z.rem a b.

(** Truthiness of a string: every string but the empty one. *)
Definition truthy (s : string) : bool := negb (String.eqb s EmptyString).

(** Truthiness of a [string | null] / [string | undefined] value. *)
Definition truthy_opt (o : option string) : bool :=
  match o with
  | Some s => truthy s
  | None => false
  end.




End JS.

(** ** Props and state *)

Inductive Direction := Prev | Next.

(** The object returned by [fetchMediaInfo] and kept in [currentMediaInfo]. *)
Record MediaInfo := mkInfo { alt : string; createdAt : string }.

(** An array prop: the reference that [Object.is] compares in a dependency
    list, and the elements. *)
Record JsArray := mkArray { aref : nat; elems : list string }.

(** [MediaPreviewProps].  A callback is known by an opaque handle; calling it
    is recorded in the state's [calls]. *)
Record Props := mkProps {
  mediaId : option string;
  onClose : nat;
  isOpen : bool;
  allMediaIds : JsArray;
  onNavigate : option nat
}.

(** What the component does to the outside world. *)
Inductive Call :=
| NavigateCall (handle : nat) (direction : Direction)
| CloseCall (handle : nat)
| ConsoleError (mediaId : string).

(** The values an event handler created during a render closes over. *)
Record Closure := mkClosure { c_props : Props; c_index : Z }.

Record State := mkState {
  props : Props;
  currentIndex : Z;
  currentMediaInfo : option MediaInfo;
  isLoading : bool;
  (** the [fetchMediaInfo] promises not yet settled, each with the [mediaId]
      its callbacks captured, oldest first *)
  pending : list string;
  (** [document.body.style.overflow === 'hidden'] *)
  overflowHidden : bool;
  (** the [keydown] listener bound on [window], if any *)
  keydown : option Closure;
  calls : list Call
}.

Definition setProps (p : Props) (s : State) : State :=
  mkState p (currentIndex s) (currentMediaInfo s) (isLoading s) (pending s)
          (overflowHidden s) (keydown s) (calls s).

Definition setCurrentIndex (i : Z) (s : State) : State :=
  mkState (props s) i (currentMediaInfo s) (isLoading s) (pending s)
          (overflowHidden s) (keydown s) (calls s).

Definition setCurrentMediaInfo (i : option MediaInfo) (s : State) : State :=
  mkState (props s) (currentIndex s) i (isLoading s) (pending s)
          (overflowHidden s) (keydown s) (calls s).

Definition setIsLoading (b : bool) (s : State) : State :=
  mkState (props s) (currentIndex s) (currentMediaInfo s) b (pending s)
          (overflowHidden s) (keydown s) (calls s).

Definition setPending (l : list string) (s : State) : State :=
  mkState (props s) (currentIndex s) (currentMediaInfo s) (isLoading s) l
          (overflowHidden s) (keydown s) (calls s).

Definition setOverflowHidden (b : bool) (s : State) : State :=
  mkState (props s) (currentIndex s) (currentMediaInfo s) (isLoading s)
          (pending s) b (keydown s) (calls s).

Definition setKeydown (k : option Closure) (s : State) : State :=
  mkState (props s) (currentIndex s) (currentMediaInfo s) (isLoading s)
          (pending s) (overflowHidden s) k (calls s).

Definition call (c : Call) (s : State) : State :=
  mkState (props s) (currentIndex s) (currentMediaInfo s) (isLoading s)
          (pending s) (overflowHidden s) (keydown s) (calls s ++ [c]).

(** ** The effects *)

(** Lines 32-41: the body scroll follows [isOpen]. *)
Definition scrollEffect (s : State) : State :=
  setOverflowHidden (isOpen (props s)) s.

(** Lines 44-62, the synchronous part: resolve the index, raise the loading
    flag and issue the fetch, all under the guard of line 45. *)
Definition fetchEffect (s : State) : State :=
  match mediaId (props s) with
  | Some m =>
      let ids := elems (allMediaIds (props s)) in
      if JS.truthy m && negb (JS.length ids =? 0) then
        let index := JS.indexOf ids m in
        setPending (pending s ++ [m])
          (setIsLoading true (setCurrentIndex index s))
      else s
  | None => s
  end.

(** Lines 52-55: the [then] callback. *)
Definition onFulfilled (info : MediaInfo) (s : State) : State :=
  setIsLoading false (setCurrentMediaInfo (Some info) s).

(** The object built at line 58; [now] is [new Date().toISOString()]. *)
Definition fallbackInfo (m now : string) : MediaInfo :=
  mkInfo ("Media " ++ m) now.

(** Lines 56-60: the [catch] callback of the fetch issued for [m]. *)
Definition onRejected (m now : string) (s : State) : State :=
  setIsLoading false
    (setCurrentMediaInfo (Some (fallbackInfo m now))
       (call (ConsoleError m) s)).

(** Lines 93-100: bind the handler of this render while open; the clean-up of
    the previous run has removed the handler bound before. *)
Definition keyboardEffect (s : State) : State :=
  setKeydown
    (if isOpen (props s) then Some (mkClosure (props s) (currentIndex s))
     else None) s.

(** ** The handlers *)

(** Lines 67-72. *)
Definition newIndex (currentIndex : Z) (direction : Direction) (len : Z) : Z :=
  match direction with
  | Prev => JS.rem (currentIndex - 1 + len) len
  | Next => JS.rem (currentIndex + 1) len
  end.

(** Lines 64-80.  [env] is the render whose [handleNavigate] is called. *)
Definition handleNavigate (env : Closure) (direction : Direction) (s : State)
  : State :=
  let len := JS.length (elems (allMediaIds (c_props env))) in
  if (len =? 0) || (c_index env =? -1) then s
  else
    let newIndex := newIndex (c_index env) direction len in
    match onNavigate (c_props env) with
    | Some h => call (NavigateCall h direction) s
    | None => setCurrentIndex newIndex s
    end.

(** Lines 82-90. *)
Definition handleKeyDown (env : Closure) (key : string) (s : State) : State :=
  if String.eqb key "ArrowLeft" then handleNavigate env Prev s
  else if String.eqb key "ArrowRight" then handleNavigate env Next s
  else if String.eqb key "Escape" then call (CloseCall (onClose (c_props env))) s
  else s.

(** ** Values derived at render time (lines 102-106) *)

(** Line 102 and line 110: the overlay and its buttons exist. *)
Definition rendered (s : State) : bool :=
  JS.truthy_opt (mediaId (props s)) && isOpen (props s).

(** Line 104, in a render that gets past line 102; [None] when the component
    renders nothing. *)
Definition currentId (s : State) : option string :=
  match mediaId (props s) with
  | Some m =>
      if JS.truthy m then
        let item := JS.get (elems (allMediaIds (props s))) (currentIndex s) in
        if negb (currentIndex s =? -1) && JS.truthy_opt item then item
        else Some m
      else None
  | None => None
  end.





Section Url.
(** [getMediaUrl] of the API module. *)
Variable getMediaUrl : string -> string.

(** Line 106. *)
Definition mediaUrl (s : State) : option string :=
  option_map getMediaUrl (currentId s).
End Url.

(** ** Transitions *)

(** How a [fetchMediaInfo] promise settles. *)
Inductive Outcome :=
| Fulfilled (info : MediaInfo)
| Rejected (now : string).

Inductive Event :=
| Render (p : Props)                 (* the parent renders with these props *)
| Settle (k : nat) (o : Outcome)     (* the k-th pending fetch settles *)
| Click (direction : Direction)      (* a click on an arrow button *)
| ClickClose                         (* a click on the close button or backdrop *)
| KeyDown (key : string).            (* a keydown event on window *)

Definition same_array (a b : JsArray) : bool := Nat.eqb (aref a) (aref b).

Definition same_id (a b : option string) : bool :=
  match a, b with
  | Some x, Some y => String.eqb x y
  | None, None => true
  | _, _ => false
  end.

(** Dependency list of line 62. *)
Definition fetch_deps_changed (p q : Props) : bool :=
  negb (same_id (mediaId p) (mediaId q))
  || negb (same_array (allMediaIds p) (allMediaIds q)).

(** Dependency list of line 100. *)
Definition keyboard_deps_changed (s t : State) : bool :=
  negb (Bool.eqb (isOpen (props s)) (isOpen (props t)))
  || negb (currentIndex s =? currentIndex t)
  || negb (same_array (allMediaIds (props s)) (allMediaIds (props t))).

Fixpoint remove_nth {A} (k : nat) (l : list A) : list A :=
  match l, k with
  | [], _ => []
  | _ :: l', O => l'
  | x :: l', S k' => x :: remove_nth k' l'
  end.

(** The callback that runs when the fetch issued for [m] settles. *)
Definition settle (m : string) (o : Outcome) (s : State) : State :=
  match o with
  | Fulfilled info => onFulfilled info s
  | Rejected now => onRejected m now s
  end.

(** The event alone: new props from the parent, a settled promise, or a
    handler called by the browser. *)
Definition handle (s : State) (e : Event) : State :=
  match e with
  | Render p => setProps p s
  | Settle k o =>
      match nth_error (pending s) k with
      | Some m => settle m o (setPending (remove_nth k (pending s)) s)
      | None => s
      end
  | Click d =>
      if rendered s
      then handleNavigate (mkClosure (props s) (currentIndex s)) d s
      else s
  | ClickClose =>
      if rendered s then call (CloseCall (onClose (props s))) s else s
  | KeyDown key =>
      match keydown s with
      | Some env => handleKeyDown env key s
      | None => s
      end
  end.

(** The render that follows: each effect runs when one of its dependencies
    differs from the previous commit [old], in the order of the source. *)
Definition commit (old new : State) : State :=
  let s1 := if Bool.eqb (isOpen (props old)) (isOpen (props new)) then new
            else scrollEffect new in
  let s2 := if fetch_deps_changed (props old) (props new) then fetchEffect s1
            else s1 in
  if keyboard_deps_changed old s2 then keyboardEffect s2 else s2.

(** One turn of the event loop. *)
Definition step (s : State) (e : Event) : State := commit s (handle s e).

(** The first render: the initial values of lines 26-28, then every effect. *)
Definition mount (p : Props) : State :=
  keyboardEffect
    (fetchEffect
       (scrollEffect (mkState p (-1) None false [] false None []))).

Definition run (s : State) (es : list Event) : State := fold_left step es s.

(** ** Vocabulary of the properties *)




(** The metadata a settled fetch hands to [setCurrentMediaInfo]. *)
Definition settled_info (m : string) (o : Outcome) : MediaInfo :=
  match o with
  | Fulfilled info => info
  | Rejected now => fallbackInfo m now
  end.

(** [needle] occurs in [s]. *)
Definition contains (s needle : string) : Prop :=
  exists pre post : string, s = (pre ++ needle ++ post)%string.

(** Two states that differ at most in the bound [keydown] listener. *)
Definition same_but_listener (s t : State) : Prop :=
  props s = props t
  /\ currentIndex s = currentIndex t
  /\ currentMediaInfo s = currentMediaInfo t
  /\ isLoading s = isLoading t
  /\ pending s = pending t
  /\ overflowHidden s = overflowHidden t
  /\ calls s = calls t.

(** The call of [handleNavigate] that an event leads to, if any: the render
    whose handler runs, and the direction. *)
Definition navigate_call (s : State) (e : Event) : option (Closure * Direction) :=
  match e with
  | Click d =>
      if rendered s then Some (mkClosure (props s) (currentIndex s), d) else None
  | KeyDown key =>
      match keydown s with
      | Some env =>
          if String.eqb key "ArrowLeft" then Some (env, Prev)
          else if String.eqb key "ArrowRight" then Some (env, Next)
          else None
      | None => None
      end
  | _ => None
  end.


(** Sample data: a three-element collection shown without a delegate. *)
Definition sample_ids : JsArray := mkArray 0 ["A"; "B"; "C"]%string.

Definition sample_props (m : string) : Props :=
  mkProps (Some m) 0 true sample_ids None.

Definition sample_info (m : string) : MediaInfo :=
  mkInfo (m ++ ".jpg") "2024-05-01T10:00:00.000Z".








(** An event that does not change the dependencies of the fetch effect as they
    were in [p]. *)
Definition quiet (p : Props) (e : Event) : bool :=
  match e with
  | Render q => negb (fetch_deps_changed p q)
  | _ => true
  end.

(** [s] is the state in which a load for [m] has just started, with no older
    fetch still pending. *)
Inductive load_started (m : string) : State -> Prop :=
| started_on_mount (p : Props) :
    mediaId p = Some m ->
    JS.truthy m = true ->
    elems (allMediaIds p) <> [] ->
    load_started m (mount p)
| started_on_change (s : State) (p : Props) :
    pending s = [] ->
    fetch_deps_changed (props s) p = true ->
    mediaId p = Some m ->
    JS.truthy m = true ->
    elems (allMediaIds p) <> [] ->
    load_started m (step s (Render p)).

(** ** What the component renders (lines 102-191) *)


Section Rendering.
Variable getMediaUrl : string -> string.


End Rendering.

(** ** Further vocabulary *)

(** A listener is bound exactly while the overlay is open, and it was created
    by a render that saw the current index and the current array. *)
Definition listener_matches (s : State) : Prop :=
  match keydown s with
  | Some env =>
      isOpen (props s) = true
      /\ c_index env = currentIndex s
      /\ same_array (allMediaIds (c_props env)) (allMediaIds (props s)) = true
  | None => isOpen (props s) = false
  end.

(** The props a parent passes when only the identifier changes. *)
Definition with_mediaId (m : string) (p : Props) : Props :=
  mkProps (Some m) (onClose p) (isOpen p) (allMediaIds p) (onNavigate p).

(** The guard of line 45. *)
Definition guard_passes (p : Props) : bool :=
  JS.truthy_opt (mediaId p) && negb (JS.length (elems (allMediaIds p)) =? 0).

(** The displacement of [k] steps in a direction. *)
Definition shift (d : Direction) (k : nat) : Z :=
  match d with
  | Next => Z.of_nat k
  | Prev => - Z.of_nat k
  end.

Definition opposite (d : Direction) : Direction :=
  match d with
  | Next => Prev
  | Prev => Next
  end.

(** * Properties *)

(** ** Index arithmetic *)

Section IndexArithmetic.

Variables currentIndex len : Z.
Hypothesis in_range : 0 <= currentIndex < len.

Lemma newIndex_prev : newIndex currentIndex Prev len = (currentIndex - 1 + len) mod len.
Proof.
  unfold newIndex, JS.rem. apply Z.rem_mod_nonneg; lia.
Qed.

Lemma newIndex_next : newIndex currentIndex Next len = (currentIndex + 1) mod len.
Proof.
  unfold newIndex, JS.rem. apply Z.rem_mod_nonneg; lia.
Qed.

Lemma newIndex_bounds d : 0 <= newIndex currentIndex d len < len.
Proof.
  destruct d; [rewrite newIndex_prev | rewrite newIndex_next];
    apply Z.mod_pos_bound; lia.
Qed.

Lemma newIndex_prev_value :
  newIndex currentIndex Prev len =
  if currentIndex =? 0 then len - 1 else currentIndex - 1.
Proof.
  rewrite newIndex_prev.
  destruct (Z.eqb_spec currentIndex 0) as [-> | Hne].
  - replace (0 - 1 + len) with (len - 1) by lia. apply Z.mod_small; lia.
  - replace (currentIndex - 1 + len) with (currentIndex - 1 + 1 * len) by lia.
    rewrite Z.mod_add by lia. apply Z.mod_small; lia.
Qed.

Lemma newIndex_next_value :
  newIndex currentIndex Next len =
  if currentIndex =? len - 1 then 0 else currentIndex + 1.
Proof.
  rewrite newIndex_next.
  destruct (Z.eqb_spec currentIndex (len - 1)) as [-> | Hne].
  - replace (len - 1 + 1) with len by lia. apply Z.mod_same; lia.
  - apply Z.mod_small; lia.
Qed.

End IndexArithmetic.

(** C4. For every [currentIndex] in [0, len) the navigation step computes
    prev as [(currentIndex - 1 + len) mod len] and next as
    [(currentIndex + 1) mod len]; both results are again indices of the
    collection, prev from 0 is [len - 1] and next from [len - 1] is 0. *)
Theorem navigation_wraps_circularly :
  forall currentIndex len : Z,
    0 <= currentIndex < len ->
    newIndex currentIndex Prev len = (currentIndex - 1 + len) mod len
    /\ newIndex currentIndex Next len = (currentIndex + 1) mod len
    /\ (forall d, 0 <= newIndex currentIndex d len < len)
    /\ newIndex 0 Prev len = len - 1
    /\ newIndex (len - 1) Next len = 0.
Proof.
  intros i len H. repeat split.
  - now apply newIndex_prev.
  - now apply newIndex_next.
  - now apply newIndex_bounds.
  - now apply newIndex_bounds.
  - rewrite newIndex_prev_value by lia. reflexivity.
  - rewrite newIndex_next_value by lia. now rewrite Z.eqb_refl.
Qed.

Lemma navigation_wraps_circularly_witness :
  0 <= 0 < 3
  /\ newIndex 0 Prev 3 = (0 - 1 + 3) mod 3
  /\ newIndex 0 Next 3 = (0 + 1) mod 3
  /\ (forall d, 0 <= newIndex 0 d 3 < 3)
  /\ newIndex 0 Prev 3 = 3 - 1
  /\ newIndex (3 - 1) Next 3 = 0.
Proof.
  split; [lia | apply (navigation_wraps_circularly 0 3); lia].
Defined.

(** C5. Navigation is invertible: from every index of a non-empty collection,
    the next step followed by the prev step comes back to the index. *)
Theorem navigation_next_then_prev :
  forall i len : Z,
    0 <= i < len ->
    newIndex (newIndex i Next len) Prev len = i.
Proof.
  intros i len H.
  pose proof (newIndex_bounds i len H Next) as Hb.
  rewrite (newIndex_prev_value _ len Hb).
  rewrite (newIndex_next_value i len H).
  destruct (Z.eqb_spec i (len - 1)) as [-> | Hne].
  - reflexivity.
  - destruct (Z.eqb_spec (i + 1) 0); lia.
Qed.

Lemma navigation_next_then_prev_witness :
  0 <= 2 < 3 /\ newIndex (newIndex 2 Next 3) Prev 3 = 2.
Proof.
  split; [lia | apply (navigation_next_then_prev 2 3); lia].
Defined.

(** ** Index resolution *)

Lemma indexOf_from_absent :
  forall xs x i, ~ In x xs -> JS.indexOf_from i xs x = -1.
Proof.
  induction xs as [| y ys IH]; intros x i Hn; simpl.
  - reflexivity.
  - destruct (String.eqb_spec y x) as [-> | Hne].
    + exfalso. apply Hn. now left.
    + apply IH. intro Hin. apply Hn. now right.
Qed.

Lemma indexOf_from_present :
  forall xs x i,
    In x xs ->
    exists n : nat,
      JS.indexOf_from i xs x = i + Z.of_nat n
      /\ nth_error xs n = Some x
      /\ forall m : nat, (m < n)%nat -> nth_error xs m <> Some x.
Proof.
  induction xs as [| y ys IH]; intros x i Hin; simpl.
  - destruct Hin.
  - destruct (String.eqb_spec y x) as [-> | Hne].
    + exists 0%nat. repeat split.
      * lia.
      * intros m Hm. lia.
    + destruct Hin as [-> | Hin]; [congruence |].
      destruct (IH x (i + 1) Hin) as (n & Hv & Hn & Hfirst).
      exists (S n). repeat split.
      * lia.
      * exact Hn.
      * intros [| m] Hm; simpl.
        -- congruence.
        -- apply Hfirst. lia.
Qed.

(** C6. Resolving the index returns the first position at which the
    identifier occurs in the collection, and -1 when the identifier does not
    occur or the collection is empty; this is the value the effect of lines
    44-47 stores. *)
Theorem indexOf_first_position :
  forall (ids : list string) (id : string),
    (In id ids ->
     exists n : nat,
       JS.indexOf ids id = Z.of_nat n
       /\ nth_error ids n = Some id
       /\ forall m : nat, (m < n)%nat -> nth_error ids m <> Some id)
    /\ (~ In id ids -> JS.indexOf ids id = -1)
    /\ JS.indexOf [] id = -1
    /\ (forall s : State,
          mediaId (props s) = Some id ->
          elems (allMediaIds (props s)) = ids ->
          JS.truthy id = true -> ids <> [] ->
          currentIndex (fetchEffect s) = JS.indexOf ids id).
Proof.
  intros ids id. repeat split.
  - intro Hin. destruct (indexOf_from_present ids id 0 Hin) as (n & Hv & Hn & Hf).
    exists n. repeat split; auto.
  - intro Hn. now apply indexOf_from_absent.
  - intros s Hm He Ht Hne. unfold fetchEffect. rewrite Hm, He, Ht.
    destruct ids as [| y ys]; [congruence |]. reflexivity.
Qed.

(** ** Classification of the media type *)








(** ** The commit that follows an event *)

Lemma same_id_refl : forall a, same_id a a = true.
Proof. intros [x |]; simpl; [apply String.eqb_refl | reflexivity]. Qed.

Lemma same_id_eq : forall a b, same_id a b = true -> a = b.
Proof.
  intros [x |] [y |]; simpl; try discriminate; try reflexivity.
  intro H. apply String.eqb_eq in H. now subst.
Qed.

Lemma same_array_refl : forall a, same_array a a = true.
Proof. intro a. apply Nat.eqb_refl. Qed.

Lemma fetch_deps_unchanged : forall p, fetch_deps_changed p p = false.
Proof.
  intro p. unfold fetch_deps_changed.
  now rewrite same_id_refl, same_array_refl.
Qed.

Lemma length_nonempty : forall l, l <> [] -> (JS.length l =? 0) = false.
Proof.
  intros [| x l] H; [congruence | reflexivity].
Qed.

Lemma fetchEffect_runs :
  forall s m,
    mediaId (props s) = Some m ->
    JS.truthy m = true ->
    elems (allMediaIds (props s)) <> [] ->
    fetchEffect s =
    setPending (pending s ++ [m])
      (setIsLoading true
         (setCurrentIndex (JS.indexOf (elems (allMediaIds (props s))) m) s)).
Proof.
  intros s m Hm Ht Hne. unfold fetchEffect.
  now rewrite Hm, Ht, (length_nonempty _ Hne).
Qed.

(** After a turn that leaves the props alone, only the keyboard effect can
    run. *)
Lemma commit_same_props :
  forall old new,
    props new = props old -> same_but_listener (commit old new) new.
Proof.
  intros old new Hp. unfold commit.
  rewrite Hp, Bool.eqb_reflx, fetch_deps_unchanged.
  destruct (keyboard_deps_changed old new); repeat split.
Qed.

(** ** Settlement of a fetch *)

Lemma step_settle :
  forall s k o m,
    nth_error (pending s) k = Some m ->
    same_but_listener
      (step s (Settle k o))
      (settle m o (setPending (remove_nth k (pending s)) s)).
Proof.
  intros s k o m H. unfold step, handle. rewrite H.
  apply commit_same_props. now destruct o.
Qed.

Lemma contains_suffix : forall pre m, contains (pre ++ m) m.
Proof.
  intros pre m. exists pre, EmptyString.
  f_equal. induction m as [| c m IH]; simpl; [reflexivity | now rewrite <- IH].
Qed.

(** C7. When the fetch issued for an identifier fails, the turn that handles
    the failure ends in a state whose metadata is the fallback: its label is
    "Media " followed by the identifier, its creation timestamp is the time of
    the failure; [isLoading] is false; the failure is only written to the
    console, and the turn is an ordinary transition (no exception). *)
Theorem fetch_failure_falls_back :
  forall (s : State) (k : nat) (m now : string),
    nth_error (pending s) k = Some m ->
    currentMediaInfo (step s (Settle k (Rejected now)))
    = Some (mkInfo ("Media " ++ m) now)
    /\ contains (alt (fallbackInfo m now)) m
    /\ createdAt (fallbackInfo m now) = now
    /\ isLoading (step s (Settle k (Rejected now))) = false
    /\ calls (step s (Settle k (Rejected now))) = calls s ++ [ConsoleError m]
    /\ props (step s (Settle k (Rejected now))) = props s
    /\ currentIndex (step s (Settle k (Rejected now))) = currentIndex s.
Proof.
  intros s k m now H.
  destruct (step_settle s k (Rejected now) m H)
    as (Hp & Hi & Hinfo & Hl & _ & _ & Hc).
  rewrite Hinfo, Hl, Hc, Hp, Hi. simpl.
  repeat split. apply (contains_suffix "Media " m).
Qed.

Lemma fetch_failure_falls_back_witness :
  nth_error (pending (mount (sample_props "B"))) 0 = Some "B"%string
  /\ currentMediaInfo
       (step (mount (sample_props "B")) (Settle 0 (Rejected "2024-05-01T10:00:00.000Z")))
     = Some (mkInfo "Media B" "2024-05-01T10:00:00.000Z")
  /\ isLoading
       (step (mount (sample_props "B")) (Settle 0 (Rejected "2024-05-01T10:00:00.000Z")))
     = false.
Proof.
  split; [reflexivity |].
  pose proof (fetch_failure_falls_back
                (mount (sample_props "B")) 0 "B" "2024-05-01T10:00:00.000Z"
                eq_refl) as (H1 & _ & _ & H2 & _).
  split; [exact H1 | exact H2].
Defined.


(** ** Navigation *)

Lemma handleNavigate_possible :
  forall env d s,
    JS.length (elems (allMediaIds (c_props env))) <> 0 ->
    c_index env <> -1 ->
    handleNavigate env d s =
    match onNavigate (c_props env) with
    | Some h => call (NavigateCall h d) s
    | None =>
        setCurrentIndex
          (newIndex (c_index env) d
                    (JS.length (elems (allMediaIds (c_props env))))) s
    end.
Proof.
  intros env d s Hlen Hidx. unfold handleNavigate.
  destruct (Z.eqb_spec (JS.length (elems (allMediaIds (c_props env)))) 0);
    [contradiction |].
  destruct (Z.eqb_spec (c_index env) (-1)); [contradiction |].
  reflexivity.
Qed.

Lemma handleNavigate_props :
  forall env d s, props (handleNavigate env d s) = props s.
Proof.
  intros env d s. unfold handleNavigate.
  destruct (_ || _); [reflexivity |].
  destruct (onNavigate (c_props env)); reflexivity.
Qed.

Lemma step_navigate_call :
  forall s e env d,
    navigate_call s e = Some (env, d) ->
    same_but_listener (step s e) (handleNavigate env d s).
Proof.
  intros s e env d H. unfold step.
  assert (Hh : handle s e = handleNavigate env d s).
  { destruct e as [p | k o | d' | | key]; simpl in H |- *; try discriminate.
    - destruct (rendered s); [| discriminate]. now inversion H.
    - destruct (keydown s) as [env' |]; [| discriminate].
      unfold handleKeyDown.
      destruct (String.eqb key "ArrowLeft"); [now inversion H |].
      destruct (String.eqb key "ArrowRight"); [now inversion H | discriminate]. }
  rewrite Hh. apply commit_same_props, handleNavigate_props.
Qed.



(** C10. A call of [handleNavigate] without a delegate changes nothing but
    the stored index: the turn issues no fetch, and the loaded metadata, the
    loading flag, the props and the record of callbacks are what they were. *)
Theorem self_managed_navigation_keeps_metadata :
  forall (s : State) (e : Event) (env : Closure) (d : Direction),
    navigate_call s e = Some (env, d) ->
    onNavigate (c_props env) = None ->
    pending (step s e) = pending s
    /\ currentMediaInfo (step s e) = currentMediaInfo s
    /\ isLoading (step s e) = isLoading s
    /\ props (step s e) = props s
    /\ calls (step s e) = calls s
    /\ overflowHidden (step s e) = overflowHidden s.
Proof.
  intros s e env d Hcall Hnone.
  destruct (step_navigate_call s e env d Hcall)
    as (Hp & _ & Hinfo & Hl & Hpend & Ho & Hc).
  rewrite Hp, Hinfo, Hl, Hpend, Ho, Hc.
  unfold handleNavigate. rewrite Hnone.
  destruct (_ || _); repeat split.
Qed.

Lemma self_managed_navigation_keeps_metadata_witness :
  navigate_call
    (run (mount (sample_props "B")) [Settle 0 (Fulfilled (sample_info "B"))])
    (Click Next)
  = Some (mkClosure (sample_props "B") 1, Next)
  /\ onNavigate (sample_props "B") = None
  /\ currentMediaInfo
       (run (mount (sample_props "B"))
            [Settle 0 (Fulfilled (sample_info "B")); Click Next])
     = Some (sample_info "B")
  /\ currentId
       (run (mount (sample_props "B"))
            [Settle 0 (Fulfilled (sample_info "B")); Click Next])
     = Some "C"%string.
Proof.
  split; [reflexivity |].
  split; [reflexivity |].
  split; [| reflexivity].
  pose proof (self_managed_navigation_keeps_metadata
                (run (mount (sample_props "B"))
                     [Settle 0 (Fulfilled (sample_info "B"))])
                (Click Next) (mkClosure (sample_props "B") 1) Next
                eq_refl eq_refl) as (_ & H & _).
  exact H.
Defined.


(** ** Stale responses *)

(** C1, as the code has it. A settling fetch is applied unconditionally: its
    result (the metadata, or the fallback built from the identifier the fetch
    was issued for) becomes the displayed metadata and [isLoading] becomes
    false, whatever the current [mediaId] is. *)
Theorem settled_fetch_always_applied :
  forall (s : State) (k : nat) (o : Outcome) (m : string),
    nth_error (pending s) k = Some m ->
    currentMediaInfo (step s (Settle k o)) = Some (settled_info m o)
    /\ isLoading (step s (Settle k o)) = false
    /\ pending (step s (Settle k o)) = remove_nth k (pending s)
    /\ props (step s (Settle k o)) = props s.
Proof.
  intros s k o m H.
  destruct (step_settle s k o m H) as (Hp & _ & Hinfo & Hl & Hpend & _ & _).
  rewrite Hp, Hinfo, Hl, Hpend. destruct o; repeat split.
Qed.

Lemma settled_fetch_always_applied_witness :
  nth_error
    (pending (run (mount (sample_props "A"))
                  [Render (sample_props "B"); Render (sample_props "C")])) 0
  = Some "A"%string
  /\ currentMediaInfo
       (step (run (mount (sample_props "A"))
                  [Render (sample_props "B"); Render (sample_props "C")])
             (Settle 0 (Fulfilled (sample_info "A"))))
     = Some (sample_info "A").
Proof.
  split; [reflexivity |].
  pose proof (settled_fetch_always_applied
                (run (mount (sample_props "A"))
                     [Render (sample_props "B"); Render (sample_props "C")])
                0 (Fulfilled (sample_info "A")) "A" eq_refl) as (H & _).
  exact H.
Defined.

(** C1, as the specification states it, fails: the parent moves from A to B
    to C, the fetch issued for A is still pending and settles last; its
    metadata replaces what is displayed although the current identifier
    is C. *)
Lemma stale_fetch_overwrites_metadata :
  mediaId
    (props (run (mount (sample_props "A"))
                [Render (sample_props "B"); Render (sample_props "C")]))
  = Some "C"%string
  /\ pending (run (mount (sample_props "A"))
                  [Render (sample_props "B"); Render (sample_props "C")])
     = ["A"; "B"; "C"]%string
  /\ currentMediaInfo
       (run (mount (sample_props "A"))
            [Render (sample_props "B"); Render (sample_props "C");
             Settle 1 (Fulfilled (sample_info "B"));
             Settle 1 (Fulfilled (sample_info "C"));
             Settle 0 (Fulfilled (sample_info "A"))])
     = Some (sample_info "A")
  /\ currentId
       (run (mount (sample_props "A"))
            [Render (sample_props "B"); Render (sample_props "C");
             Settle 1 (Fulfilled (sample_info "B"));
             Settle 1 (Fulfilled (sample_info "C"));
             Settle 0 (Fulfilled (sample_info "A"))])
     = Some "C"%string.
Proof.
  repeat split.
Qed.


(** ** The shape of a commit *)

Lemma fetchEffect_scrollEffect :
  forall s,
    fetchEffect (scrollEffect s)
    = setOverflowHidden (isOpen (props s)) (fetchEffect s).
Proof.
  intro s. unfold fetchEffect, scrollEffect. simpl.
  destruct (mediaId (props s)) as [m |]; [| reflexivity].
  destruct (_ && _); reflexivity.
Qed.

Lemma fetchEffect_props : forall s, props (fetchEffect s) = props s.
Proof.
  intro s. unfold fetchEffect.
  destruct (mediaId (props s)) as [m |]; [| reflexivity].
  destruct (_ && _); reflexivity.
Qed.

(** Up to the scroll flag and the listener, a commit is the fetch effect, run
    or not. *)
Lemma commit_shape :
  forall old new,
    exists (b : bool) (k : option Closure),
      commit old new
      = setKeydown k
          (setOverflowHidden b
             (if fetch_deps_changed (props old) (props new)
              then fetchEffect new else new))
      /\ (k = keydown new
          \/ k = None
          \/ exists i, k = Some (mkClosure (props new) i)).
Proof.
  intros old new. unfold commit.
  set (fdc := fetch_deps_changed (props old) (props new)).
  assert (Hk : forall t : State,
             props t = props new -> keydown t = keydown new ->
             exists k,
               (if keyboard_deps_changed old t then keyboardEffect t else t)
               = setKeydown k t
               /\ (k = keydown new \/ k = None
                   \/ exists i, k = Some (mkClosure (props new) i))).
  { intros t Hp Hkd. destruct (keyboard_deps_changed old t).
    - unfold keyboardEffect. rewrite Hp. destruct (isOpen (props new)).
      + eexists; split; [reflexivity |]. right; right. eauto.
      + eexists; split; [reflexivity |]. auto.
    - exists (keydown t). split; [now destruct t | auto]. }
  destruct (Bool.eqb (isOpen (props old)) (isOpen (props new))).
  - exists (overflowHidden new).
    assert (E : (if fdc then fetchEffect new else new)
                = setOverflowHidden (overflowHidden new)
                    (if fdc then fetchEffect new else new)).
    { destruct fdc; [| now destruct new].
      unfold fetchEffect. destruct (mediaId (props new)); [| now destruct new].
      destruct (_ && _); [reflexivity | now destruct new]. }
    rewrite <- E.
    apply Hk.
    + destruct fdc; [apply fetchEffect_props | reflexivity].
    + destruct fdc; [| reflexivity]. unfold fetchEffect.
      destruct (mediaId (props new)); [| reflexivity].
      destruct (_ && _); reflexivity.
  - exists (isOpen (props new)).
    assert (E : (if fdc then fetchEffect (scrollEffect new) else scrollEffect new)
                = setOverflowHidden (isOpen (props new))
                    (if fdc then fetchEffect new else new)).
    { destruct fdc; [apply fetchEffect_scrollEffect | reflexivity]. }
    rewrite E.
    apply Hk.
    + simpl. destruct fdc; [apply fetchEffect_props | reflexivity].
    + simpl. destruct fdc; [| reflexivity]. unfold fetchEffect.
      destruct (mediaId (props new)); [| reflexivity].
      destruct (_ && _); reflexivity.
Qed.

(** Only a render changes the props. *)
Lemma handle_props :
  forall s e,
    (forall p, e <> Render p) -> props (handle s e) = props s.
Proof.
  intros s e Hnr. destruct e as [p | k o | d | | key]; simpl.
  - now elim (Hnr p).
  - destruct (nth_error (pending s) k); [now destruct o | reflexivity].
  - destruct (rendered s); [apply handleNavigate_props | reflexivity].
  - now destruct (rendered s).
  - destruct (keydown s) as [env |]; [| reflexivity].
    unfold handleKeyDown.
    repeat (destruct (String.eqb key _);
            [apply handleNavigate_props || reflexivity |]).
    reflexivity.
Qed.

Lemma step_no_render :
  forall s e,
    (forall p, e <> Render p) -> same_but_listener (step s e) (handle s e).
Proof.
  intros s e Hnr. apply commit_same_props. now apply handle_props.
Qed.

Lemma step_render_props : forall s p, props (step s (Render p)) = p.
Proof.
  intros s p. unfold step.
  destruct (commit_shape s (handle s (Render p))) as (b & k & -> & _).
  simpl. destruct (fetch_deps_changed _ _); [| reflexivity].
  apply (fetchEffect_props (setProps p s)).
Qed.

Lemma fetch_deps_changed_false :
  forall p q,
    fetch_deps_changed p q = false <->
    mediaId p = mediaId q /\ aref (allMediaIds p) = aref (allMediaIds q).
Proof.
  intros p q. unfold fetch_deps_changed, same_array.
  rewrite orb_false_iff, !negb_false_iff, Nat.eqb_eq. split.
  - intros [H1 H2]. split; [now apply same_id_eq | exact H2].
  - intros [H1 H2]. rewrite H1. split; [apply same_id_refl | exact H2].
Qed.

(** ** The stored index *)


Lemma indexOf_get :
  forall xs x,
    JS.indexOf xs x <> -1 -> JS.get xs (JS.indexOf xs x) = Some x.
Proof.
  intros xs x H. destruct (in_dec string_dec x xs) as [Hin | Hout].
  - destruct (indexOf_from_present xs x 0 Hin) as (n & Hv & Hn & _).
    unfold JS.indexOf. rewrite Hv. unfold JS.get. simpl.
    destruct (Z.ltb_spec (Z.of_nat n) 0); [lia |].
    now rewrite Nat2Z.id.
  - elim H. now apply indexOf_from_absent.
Qed.

Lemma indexOf_nodup :
  forall xs x n,
    NoDup xs -> nth_error xs n = Some x -> JS.indexOf xs x = Z.of_nat n.
Proof.
  intros xs x n Hnd Hn.
  assert (Hin : In x xs) by (eapply nth_error_In; eauto).
  destruct (indexOf_from_present xs x 0 Hin) as (n' & Hv & Hn' & _).
  unfold JS.indexOf. rewrite Hv. simpl. f_equal.
  rewrite NoDup_nth_error in Hnd. apply Hnd.
  - apply nth_error_Some. congruence.
  - congruence.
Qed.

Lemma newIndex_in_range :
  forall i d len, 0 <= i -> 0 < len -> 0 <= newIndex i d len < len.
Proof.
  intros i d len Hi Hlen. unfold newIndex, JS.rem.
  destruct d; apply Z.rem_bound_pos; lia.
Qed.







Lemma handle_keydown : forall s e, keydown (handle s e) = keydown s.
Proof.
  intros s e.
  assert (Hnav : forall env d, keydown (handleNavigate env d s) = keydown s).
  { intros env d. unfold handleNavigate.
    destruct (_ || _); [reflexivity |].
    destruct (onNavigate (c_props env)); reflexivity. }
  destruct e as [p | k o | d | | key]; simpl.
  - reflexivity.
  - destruct (nth_error (pending s) k); [now destruct o | reflexivity].
  - destruct (rendered s); [apply Hnav | reflexivity].
  - now destruct (rendered s).
  - destruct (keydown s) as [env |] eqn:E; [| exact E].
    unfold handleKeyDown.
    repeat (destruct (String.eqb key _); [apply Hnav || exact E |]).
    exact E.
Qed.

Lemma fetchEffect_keydown : forall s, keydown (fetchEffect s) = keydown s.
Proof.
  intro s. unfold fetchEffect.
  destruct (mediaId (props s)) as [m |]; [| reflexivity].
  destruct (_ && _); reflexivity.
Qed.










(** ** The loading flag *)

(** An event other than a render and a settlement touches neither the pending
    fetches nor the loading flag. *)
Lemma handle_user_event :
  forall s e,
    (forall p, e <> Render p) ->
    (forall k o, e <> Settle k o) ->
    pending (handle s e) = pending s /\ isLoading (handle s e) = isLoading s.
Proof.
  intros s e Hnr Hns.
  assert (Hnav : forall env d,
             pending (handleNavigate env d s) = pending s
             /\ isLoading (handleNavigate env d s) = isLoading s).
  { intros env d. unfold handleNavigate.
    destruct (_ || _); [now split |].
    destruct (onNavigate (c_props env)); now split. }
  destruct e as [p | k o | d | | key]; simpl.
  - now elim (Hnr p).
  - now elim (Hns k o).
  - destruct (rendered s); [apply Hnav | now split].
  - now destruct (rendered s).
  - destruct (keydown s) as [env |]; [| now split].
    unfold handleKeyDown.
    repeat (destruct (String.eqb key _); [apply Hnav || now split |]).
    now split.
Qed.

(** What one quiet event does to the pending fetches and the loading flag:
    nothing, or one fetch settles and the flag falls. *)
Lemma quiet_step :
  forall p s e,
    fetch_deps_changed p (props s) = false ->
    quiet p e = true ->
    fetch_deps_changed p (props (step s e)) = false
    /\ ((pending (step s e) = pending s /\ isLoading (step s e) = isLoading s)
        \/ (exists k m, nth_error (pending s) k = Some m
                        /\ pending (step s e) = remove_nth k (pending s)
                        /\ isLoading (step s e) = false)).
Proof.
  intros p s e Hkey Hq.
  destruct e as [q | k o | d | | key].
  - simpl in Hq. apply negb_true_iff in Hq.
    rewrite step_render_props. split; [exact Hq |]. left.
    assert (F : fetch_deps_changed (props s) q = false).
    { apply fetch_deps_changed_false in Hkey, Hq.
      apply fetch_deps_changed_false. destruct Hkey, Hq. split; congruence. }
    unfold step.
    destruct (commit_shape s (handle s (Render q))) as (b & k & -> & _).
    simpl. rewrite F. now split.
  - assert (Hnr : forall q, Settle k o <> Render q) by discriminate.
    destruct (step_no_render s _ Hnr) as (Hp & _ & _ & Hl & Hpend & _).
    rewrite Hp, Hl, Hpend, (handle_props s _ Hnr). split; [exact Hkey |].
    simpl. destruct (nth_error (pending s) k) as [m |] eqn:E.
    + right. exists k, m. destruct o; now repeat split.
    + left. now split.
  - assert (Hnr : forall q, Click d <> Render q) by discriminate.
    destruct (step_no_render s _ Hnr) as (Hp & _ & _ & Hl & Hpend & _).
    rewrite Hp, Hl, Hpend, (handle_props s _ Hnr). split; [exact Hkey |].
    left. apply handle_user_event; discriminate.
  - assert (Hnr : forall q, ClickClose <> Render q) by discriminate.
    destruct (step_no_render s _ Hnr) as (Hp & _ & _ & Hl & Hpend & _).
    rewrite Hp, Hl, Hpend, (handle_props s _ Hnr). split; [exact Hkey |].
    left. apply handle_user_event; discriminate.
  - assert (Hnr : forall q, KeyDown key <> Render q) by discriminate.
    destruct (step_no_render s _ Hnr) as (Hp & _ & _ & Hl & Hpend & _).
    rewrite Hp, Hl, Hpend, (handle_props s _ Hnr). split; [exact Hkey |].
    left. apply handle_user_event; discriminate.
Qed.

(** Through quiet events a lone load is outstanding with the flag up, or
    settled with the flag down; and settled stays settled. *)
Lemma quiet_run :
  forall m p es s,
    fetch_deps_changed p (props s) = false ->
    forallb (quiet p) es = true ->
    (pending s = [m] /\ isLoading s = true)
    \/ (pending s = [] /\ isLoading s = false) ->
    fetch_deps_changed p (props (run s es)) = false
    /\ ((pending (run s es) = [m] /\ isLoading (run s es) = true)
        \/ (pending (run s es) = [] /\ isLoading (run s es) = false))
    /\ (isLoading s = false -> isLoading (run s es) = false).
Proof.
  intros m p. induction es as [| e es IH]; intros s Hkey Hq Hph; simpl.
  - auto.
  - simpl in Hq. apply andb_true_iff in Hq. destruct Hq as [He Hes].
    destruct (quiet_step p s e Hkey He) as (Hkey' & Hstep).
    assert (Hph' : ((pending (step s e) = [m] /\ isLoading (step s e) = true)
                    \/ (pending (step s e) = [] /\ isLoading (step s e) = false))
                   /\ (isLoading s = false -> isLoading (step s e) = false)).
    { destruct Hstep as [[Hpe Hl] | (k & m' & Hn & Hpe & Hl)].
      - rewrite Hpe, Hl. split; [exact Hph | auto].
      - rewrite Hpe, Hl. split; [| auto]. right. split; [| reflexivity].
        destruct Hph as [[Hp _] | [Hp _]]; rewrite Hp in Hn |- *.
        + destruct k as [| k]; [reflexivity |].
          destruct k; discriminate.
        + destruct k; discriminate. }
    destruct Hph' as [Hph' Hmono].
    destruct (IH (step s e) Hkey' Hes Hph') as (H1 & H2 & H3).
    auto.
Qed.

Lemma load_started_state :
  forall m s,
    load_started m s -> pending s = [m] /\ isLoading s = true.
Proof.
  intros m s H. destruct H as [p Hm Ht Hne | s p Hpend F Hm Ht Hne].
  - unfold mount.
    rewrite (fetchEffect_runs
               (scrollEffect (mkState p (-1) None false [] false None []))
               m Hm Ht Hne).
    now split.
  - unfold step.
    destruct (commit_shape s (handle s (Render p))) as (b & k & -> & _).
    simpl. rewrite F.
    rewrite (fetchEffect_runs (setProps p s) m Hm Ht Hne). simpl.
    rewrite Hpend. now split.
Qed.

(** C3, as the code has it. When a load starts while no older fetch is
    pending, then up to the next change of [mediaId] or of the collection:
    [isLoading] is true exactly while the load is outstanding, false exactly
    once it has settled, and once false it stays false. *)
Theorem loading_flag_of_a_lone_load :
  forall (m : string) (s0 : State) (es1 es2 : list Event),
    load_started m s0 ->
    forallb (quiet (props s0)) (es1 ++ es2) = true ->
    (isLoading s0 = true /\ pending s0 = [m])
    /\ (isLoading (run s0 es1) = true <-> pending (run s0 es1) = [m])
    /\ (isLoading (run s0 es1) = false <-> pending (run s0 es1) = [])
    /\ (isLoading (run s0 es1) = false ->
        isLoading (run (run s0 es1) es2) = false).
Proof.
  intros m s0 es1 es2 Hstart Hq.
  rewrite forallb_app in Hq. apply andb_true_iff in Hq. destruct Hq as [Hq1 Hq2].
  destruct (load_started_state m s0 Hstart) as [Hp0 Hl0].
  destruct (quiet_run m (props s0) es1 s0 (fetch_deps_unchanged _) Hq1)
    as (Hkey1 & Hph1 & _); [auto |].
  destruct (quiet_run m (props s0) es2 (run s0 es1) Hkey1 Hq2 Hph1)
    as (_ & _ & Hmono).
  split; [now split |].
  split; [| split].
  - destruct Hph1 as [[Hp Hl] | [Hp Hl]]; rewrite Hp, Hl; split;
      intro; (reflexivity || discriminate).
  - destruct Hph1 as [[Hp Hl] | [Hp Hl]]; rewrite Hp, Hl; split;
      intro; (reflexivity || discriminate).
  - exact Hmono.
Qed.

Lemma loading_flag_of_a_lone_load_witness :
  load_started "A" (mount (sample_props "A"))
  /\ forallb (quiet (props (mount (sample_props "A"))))
             ([Click Next; Settle 0 (Fulfilled (sample_info "A"))]
              ++ [KeyDown "ArrowLeft"; Render (sample_props "A")])
     = true
  /\ isLoading
       (run (mount (sample_props "A"))
            [Click Next; Settle 0 (Fulfilled (sample_info "A"))])
     = false
  /\ isLoading
       (run (run (mount (sample_props "A"))
                 [Click Next; Settle 0 (Fulfilled (sample_info "A"))])
            [KeyDown "ArrowLeft"; Render (sample_props "A")])
     = false.
Proof.
  assert (Hs : load_started "A" (mount (sample_props "A"))).
  { apply started_on_mount; [reflexivity | reflexivity | discriminate]. }
  split; [exact Hs |].
  split; [reflexivity |].
  split; [reflexivity |].
  pose proof (loading_flag_of_a_lone_load
                "A" (mount (sample_props "A"))
                [Click Next; Settle 0 (Fulfilled (sample_info "A"))]
                [KeyDown "ArrowLeft"; Render (sample_props "A")]
                Hs eq_refl) as (_ & _ & _ & H).
  apply H. reflexivity.
Defined.

(** C3, as the specification states it, fails: the load for B is still
    outstanding when the older fetch, issued for A, settles and lowers
    [isLoading]. *)
Lemma stale_fetch_lowers_loading_flag :
  currentId
    (run (mount (sample_props "A"))
         [Render (sample_props "B");
          Settle 0 (Fulfilled (sample_info "A"))])
  = Some "B"%string
  /\ pending (run (mount (sample_props "A"))
                  [Render (sample_props "B");
                   Settle 0 (Fulfilled (sample_info "A"))])
     = ["B"%string]
  /\ isLoading (run (mount (sample_props "A"))
                    [Render (sample_props "B");
                     Settle 0 (Fulfilled (sample_info "A"))])
     = false.
Proof.
  repeat split.
Qed.


(** ** The scenario of the specification *)

Example scenario_open_next_next :
  currentIndex (mount (sample_props "B")) = 1
  /\ currentIndex (run (mount (sample_props "B")) [Click Next]) = 2
  /\ currentId (run (mount (sample_props "B")) [Click Next]) = Some "C"%string
  /\ currentIndex (run (mount (sample_props "B")) [Click Next; Click Next]) = 0
  /\ currentId (run (mount (sample_props "B")) [Click Next; Click Next])
     = Some "A"%string.
Proof.
  repeat split.
Qed.

(** * Further properties of the component *)

(** ** The fields of a committed state *)

Lemma fetchEffect_frame :
  forall s,
    props (fetchEffect s) = props s
    /\ currentMediaInfo (fetchEffect s) = currentMediaInfo s
    /\ overflowHidden (fetchEffect s) = overflowHidden s
    /\ keydown (fetchEffect s) = keydown s
    /\ calls (fetchEffect s) = calls s.
Proof.
  intro s. unfold fetchEffect.
  destruct (mediaId (props s)) as [m |]; [| now repeat split].
  destruct (_ && _); now repeat split.
Qed.

Lemma keyboard_deps_changed_ext :
  forall s t t',
    props t = props t' ->
    currentIndex t = currentIndex t' ->
    keyboard_deps_changed s t = keyboard_deps_changed s t'.
Proof.
  intros s t t' Hp Hi. unfold keyboard_deps_changed. now rewrite Hp, Hi.
Qed.

(** A turn that changes neither the props nor the index commits as it is. *)
Lemma commit_idle :
  forall old new,
    props new = props old ->
    currentIndex new = currentIndex old ->
    commit old new = new.
Proof.
  intros old new Hp Hi. unfold commit.
  rewrite Hp, Bool.eqb_reflx, fetch_deps_unchanged. cbv beta iota zeta.
  unfold keyboard_deps_changed.
  rewrite Hp, Hi, Bool.eqb_reflx, Z.eqb_refl, same_array_refl.
  reflexivity.
Qed.

(** The scroll flag and the listener after a turn, exactly. *)
Lemma step_overflow :
  forall s e,
    overflowHidden (handle s e) = overflowHidden s ->
    overflowHidden (step s e)
    = if Bool.eqb (isOpen (props s)) (isOpen (props (step s e)))
      then overflowHidden s
      else isOpen (props (step s e)).
Proof.
  intros s e Hh. unfold step, commit.
  set (new := handle s e) in *.
  destruct (fetchEffect_frame new) as (Fp & _ & Fo & _).
  destruct (fetchEffect_frame (scrollEffect new)) as (Gp & _ & Go & _).
  destruct (Bool.eqb (isOpen (props s)) (isOpen (props new))) eqn:O;
    destruct (fetch_deps_changed (props s) (props new));
    destruct (keyboard_deps_changed s _); simpl;
    rewrite ?Fp, ?Fo, ?Gp, ?Go; simpl; rewrite ?O; auto.
Qed.

Lemma handle_overflow :
  forall s e, overflowHidden (handle s e) = overflowHidden s.
Proof.
  intros s e.
  assert (Hnav : forall env d,
             overflowHidden (handleNavigate env d s) = overflowHidden s).
  { intros env d. unfold handleNavigate.
    destruct (_ || _); [reflexivity |].
    destruct (onNavigate (c_props env)); reflexivity. }
  destruct e as [p | k o | d | | key]; simpl.
  - reflexivity.
  - destruct (nth_error (pending s) k); [now destruct o | reflexivity].
  - destruct (rendered s); [apply Hnav | reflexivity].
  - now destruct (rendered s).
  - destruct (keydown s) as [env |]; [| reflexivity].
    unfold handleKeyDown.
    repeat (destruct (String.eqb key _); [apply Hnav || reflexivity |]).
    reflexivity.
Qed.

Lemma step_listener_exact :
  forall s e,
    keydown (step s e)
    = if keyboard_deps_changed s (step s e)
      then (if isOpen (props (step s e))
            then Some (mkClosure (props (step s e)) (currentIndex (step s e)))
            else None)
      else keydown s.
Proof.
  intros s e. unfold step, commit.
  set (new := handle s e).
  set (s1 := if Bool.eqb (isOpen (props s)) (isOpen (props new)) then new
             else scrollEffect new).
  set (s2 := if fetch_deps_changed (props s) (props new) then fetchEffect s1
             else s1).
  assert (Hk : keydown s2 = keydown s).
  { unfold s2, s1. rewrite <- (handle_keydown s e). fold new.
    destruct (fetch_deps_changed _ _); [rewrite fetchEffect_keydown |];
      now destruct (Bool.eqb _ _). }
  destruct (keyboard_deps_changed s s2) eqn:K.
  - rewrite (keyboard_deps_changed_ext s (keyboardEffect s2) s2), K;
      reflexivity.
  - rewrite K. exact Hk.
Qed.

Lemma mount_fields :
  forall p,
    props (mount p) = p
    /\ overflowHidden (mount p) = isOpen p
    /\ keydown (mount p)
       = (if isOpen p then Some (mkClosure p (currentIndex (mount p))) else None)
    /\ calls (mount p) = []
    /\ currentMediaInfo (mount p) = None.
Proof.
  intro p. unfold mount.
  set (s0 := scrollEffect (mkState p (-1) None false [] false None [])).
  destruct (fetchEffect_frame s0) as (Fp & Fi & Fo & _ & Fc).
  unfold keyboardEffect. simpl. rewrite Fp, Fi, Fo, Fc. now repeat split.
Qed.

(** ** Scroll lock and keyboard listener *)

Lemma run_cons : forall s e es, run s (e :: es) = run (step s e) es.
Proof. reflexivity. Qed.

Lemma scroll_step :
  forall s e,
    overflowHidden s = isOpen (props s) ->
    overflowHidden (step s e) = isOpen (props (step s e)).
Proof.
  intros s e H. rewrite (step_overflow s e (handle_overflow s e)).
  destruct (Bool.eqb (isOpen (props s)) (isOpen (props (step s e)))) eqn:O;
    [| reflexivity].
  apply Bool.eqb_prop in O. congruence.
Qed.

(** X1. In every state the component can reach, the body scroll is
    suppressed exactly when [isOpen] is true. *)
Theorem scroll_lock_follows_isOpen :
  forall (p : Props) (es : list Event),
    overflowHidden (run (mount p) es) = isOpen (props (run (mount p) es)).
Proof.
  intros p es.
  assert (H0 : overflowHidden (mount p) = isOpen (props (mount p))).
  { destruct (mount_fields p) as (Hp & Ho & _). now rewrite Hp, Ho. }
  revert H0. generalize (mount p). induction es as [| e es IH]; intros s H.
  - exact H.
  - rewrite run_cons. apply IH. now apply scroll_step.
Qed.

Lemma listener_matches_mount : forall p, listener_matches (mount p).
Proof.
  intro p. unfold listener_matches.
  destruct (mount_fields p) as (Hp & _ & Hk & _). rewrite Hk, Hp.
  destruct (isOpen p); [| reflexivity].
  repeat split. apply same_array_refl.
Qed.

Lemma listener_matches_step :
  forall s e, listener_matches s -> listener_matches (step s e).
Proof.
  intros s e H. unfold listener_matches in *.
  rewrite (step_listener_exact s e).
  destruct (keyboard_deps_changed s (step s e)) eqn:K.
  - destruct (isOpen (props (step s e))); [| reflexivity].
    repeat split. apply same_array_refl.
  - unfold keyboard_deps_changed in K.
    rewrite !orb_false_iff, !negb_false_iff in K.
    destruct K as [[K1 K2] K3].
    apply Bool.eqb_prop in K1. apply Z.eqb_eq in K2.
    destruct (keydown s) as [env |].
    + destruct H as (H1 & H2 & H3). repeat split; try congruence.
      unfold same_array in *. apply Nat.eqb_eq in H3, K3. apply Nat.eqb_eq.
      congruence.
    + congruence.
Qed.

Lemma listener_matches_run :
  forall p es, listener_matches (run (mount p) es).
Proof.
  intros p es. generalize (listener_matches_mount p). generalize (mount p).
  induction es as [| e es IH]; intros s H.
  - exact H.
  - rewrite run_cons. apply IH. now apply listener_matches_step.
Qed.

(** X2. In every reachable state a [keydown] listener is bound exactly when
    [isOpen] is true, and the bound listener was created by a render that saw
    the current index and the current array: it never acts on an outdated
    index. *)
Theorem listener_bound_iff_open :
  forall (p : Props) (es : list Event),
    (keydown (run (mount p) es) = None
     <-> isOpen (props (run (mount p) es)) = false)
    /\ (forall env,
          keydown (run (mount p) es) = Some env ->
          c_index env = currentIndex (run (mount p) es)
          /\ aref (allMediaIds (c_props env))
             = aref (allMediaIds (props (run (mount p) es)))).
Proof.
  intros p es. pose proof (listener_matches_run p es) as H.
  unfold listener_matches in H.
  destruct (keydown (run (mount p) es)) as [env |].
  - destruct H as (H1 & H2 & H3). split.
    + split; [discriminate | congruence].
    + intros env' E. inversion E. subst env'. split; [exact H2 |].
      unfold same_array in H3. now apply Nat.eqb_eq.
  - split; [now split | discriminate].
Qed.

(** X3. While the overlay is closed no key does anything: the state after a
    [keydown] event is the state before it. *)
Theorem keys_ignored_while_closed :
  forall (p : Props) (es : list Event) (key : string),
    isOpen (props (run (mount p) es)) = false ->
    step (run (mount p) es) (KeyDown key) = run (mount p) es.
Proof.
  intros p es key Hclosed.
  pose proof (listener_matches_run p es) as H. unfold listener_matches in H.
  unfold step, handle.
  destruct (keydown (run (mount p) es)) as [env |].
  - destruct H as (H1 & _). congruence.
  - now apply commit_idle.
Qed.

Lemma keys_ignored_while_closed_witness :
  isOpen (props (run (mount (sample_props "B"))
                     [Render (mkProps (Some "B"%string) 0 false sample_ids None)]))
  = false
  /\ step (run (mount (sample_props "B"))
               [Render (mkProps (Some "B"%string) 0 false sample_ids None)])
          (KeyDown "ArrowRight")
     = run (mount (sample_props "B"))
           [Render (mkProps (Some "B"%string) 0 false sample_ids None)].
Proof.
  split; [reflexivity |].
  apply (keys_ignored_while_closed
           (sample_props "B")
           [Render (mkProps (Some "B"%string) 0 false sample_ids None)]
           "ArrowRight").
  reflexivity.
Defined.

(** X4. A key other than ArrowLeft, ArrowRight and Escape is ignored in every
    state. *)
Theorem other_keys_ignored :
  forall (s : State) (key : string),
    key <> "ArrowLeft"%string ->
    key <> "ArrowRight"%string ->
    key <> "Escape"%string ->
    step s (KeyDown key) = s.
Proof.
  intros s key H1 H2 H3. unfold step, handle.
  destruct (keydown s) as [env |]; [| now apply commit_idle].
  unfold handleKeyDown.
  destruct (String.eqb_spec key "ArrowLeft"); [contradiction |].
  destruct (String.eqb_spec key "ArrowRight"); [contradiction |].
  destruct (String.eqb_spec key "Escape"); [contradiction |].
  now apply commit_idle.
Qed.

Lemma other_keys_ignored_witness :
  step (mount (sample_props "B")) (KeyDown "Enter") = mount (sample_props "B").
Proof.
  apply (other_keys_ignored (mount (sample_props "B")) "Enter"); discriminate.
Defined.





(** X6. Closing only notifies: a click on the close button or the backdrop,
    and the Escape key, append one call of [onClose] and change nothing else;
    the index, the metadata, the pending fetches, the scroll flag and the
    listener stay as they are until the parent renders again. *)
Theorem close_only_notifies :
  forall s : State,
    (rendered s = true ->
     step s ClickClose = call (CloseCall (onClose (props s))) s)
    /\ (forall env,
          keydown s = Some env ->
          step s (KeyDown "Escape")
          = call (CloseCall (onClose (c_props env))) s).
Proof.
  intro s. split.
  - intro Hr. unfold step, handle. rewrite Hr. now apply commit_idle.
  - intros env Hk. unfold step, handle. rewrite Hk.
    unfold handleKeyDown. simpl. now apply commit_idle.
Qed.

(** ** When a render fetches *)

Lemma fetchEffect_cases :
  forall s,
    (exists m,
        mediaId (props s) = Some m
        /\ guard_passes (props s) = true
        /\ fetchEffect s
           = setPending (pending s ++ [m])
               (setIsLoading true
                  (setCurrentIndex
                     (JS.indexOf (elems (allMediaIds (props s))) m) s)))
    \/ (guard_passes (props s) = false /\ fetchEffect s = s).
Proof.
  intro s. unfold fetchEffect, guard_passes.
  destruct (mediaId (props s)) as [m |]; [| now right].
  simpl. destruct (JS.truthy m && _) eqn:G; [left | now right].
  exists m. auto.
Qed.

Lemma step_render_fields :
  forall s p,
    pending (step s (Render p))
    = pending (if fetch_deps_changed (props s) p
               then fetchEffect (setProps p s) else setProps p s)
    /\ isLoading (step s (Render p))
       = isLoading (if fetch_deps_changed (props s) p
                    then fetchEffect (setProps p s) else setProps p s)
    /\ currentIndex (step s (Render p))
       = currentIndex (if fetch_deps_changed (props s) p
                       then fetchEffect (setProps p s) else setProps p s)
    /\ currentMediaInfo (step s (Render p)) = currentMediaInfo s.
Proof.
  intros s p. unfold step.
  destruct (commit_shape s (handle s (Render p))) as (b & k & -> & _).
  cbn [handle setProps props]. simpl.
  repeat split.
  destruct (fetch_deps_changed (props s) p); [| reflexivity].
  now destruct (fetchEffect_frame (setProps p s)) as (_ & -> & _).
Qed.

(** X7. A render issues a fetch exactly when [mediaId] or the array reference
    changed and the guard of line 45 passes: then one fetch for the new
    identifier joins the pending ones (none is cancelled), [isLoading] is
    raised and the index is resolved; otherwise the pending fetches, the
    loading flag and the index are left as they were. *)
Theorem render_fetches_iff_deps_changed_and_guard :
  forall (s : State) (p : Props),
    if fetch_deps_changed (props s) p && guard_passes p
    then exists m,
        mediaId p = Some m
        /\ pending (step s (Render p)) = pending s ++ [m]
        /\ isLoading (step s (Render p)) = true
        /\ currentIndex (step s (Render p))
           = JS.indexOf (elems (allMediaIds p)) m
    else pending (step s (Render p)) = pending s
         /\ isLoading (step s (Render p)) = isLoading s
         /\ currentIndex (step s (Render p)) = currentIndex s.
Proof.
  intros s p.
  destruct (step_render_fields s p) as (Hp & Hl & Hi & _).
  rewrite Hp, Hl, Hi.
  destruct (fetch_deps_changed (props s) p); simpl; [| now repeat split].
  destruct (fetchEffect_cases (setProps p s)) as [(m & Hm & Hg & ->) | (Hg & ->)];
    cbn [props setProps] in Hg; rewrite Hg.
  - exists m. now repeat split.
  - now repeat split.
Qed.

Lemma currentId_resolved :
  forall s m,
    mediaId (props s) = Some m ->
    JS.truthy m = true ->
    currentIndex s = JS.indexOf (elems (allMediaIds (props s))) m ->
    currentId s = Some m.
Proof.
  intros s m Hm Ht Hi. unfold currentId. rewrite Hm, Ht. cbv zeta.
  destruct (Z.eqb_spec (currentIndex s) (-1)) as [E | E]; [reflexivity |].
  rewrite Hi in E |- *. rewrite (indexOf_get _ _ E). simpl. now rewrite Ht.
Qed.

(** X8. Right after the index has been resolved for a non-empty identifier -
    on mounting, and on every render that changes [mediaId] or the array while
    the collection is non-empty - the displayed identifier is the requested
    [mediaId], whether or not the collection contains it. *)
Theorem displayed_id_is_requested_id :
  forall (p : Props) (m : string),
    mediaId p = Some m ->
    JS.truthy m = true ->
    currentId (mount p) = Some m
    /\ (forall s,
          fetch_deps_changed (props s) p = true ->
          elems (allMediaIds p) <> [] ->
          currentId (step s (Render p)) = Some m).
Proof.
  intros p m Hm Ht. split.
  - destruct (mount_fields p) as (Hp & _).
    apply currentId_resolved; rewrite ?Hp; auto.
    unfold mount.
    set (s0 := scrollEffect (mkState p (-1) None false [] false None [])).
    change (currentIndex (keyboardEffect (fetchEffect s0)))
      with (currentIndex (fetchEffect s0)).
    destruct (fetchEffect_cases s0) as [(m' & Hm' & _ & ->) | (Hg & ->)].
    + simpl in Hm'. rewrite Hm in Hm'. now inversion Hm'.
    + unfold guard_passes in Hg. simpl in Hg. rewrite Hm in Hg. simpl in Hg.
      rewrite Ht in Hg. simpl in Hg. apply negb_false_iff in Hg.
      destruct (elems (allMediaIds p)); [reflexivity | discriminate].
  - intros s F Hne.
    assert (Hprops := step_render_props s p).
    apply currentId_resolved; rewrite ?Hprops; auto.
    destruct (step_render_fields s p) as (_ & _ & -> & _). rewrite F.
    now rewrite (fetchEffect_runs (setProps p s) m Hm Ht Hne).
Qed.

Lemma displayed_id_is_requested_id_witness :
  mediaId (mkProps (Some "Z"%string) 0 true sample_ids None) = Some "Z"%string
  /\ JS.truthy "Z" = true
  /\ currentId (mount (mkProps (Some "Z"%string) 0 true sample_ids None))
     = Some "Z"%string.
Proof.
  split; [reflexivity |].
  split; [reflexivity |].
  exact (proj1 (displayed_id_is_requested_id
                  (mkProps (Some "Z"%string) 0 true sample_ids None) "Z"
                  eq_refl eq_refl)).
Defined.

Lemma handle_info :
  forall s e,
    (forall k o, e <> Settle k o) ->
    currentMediaInfo (handle s e) = currentMediaInfo s.
Proof.
  intros s e Hns.
  assert (Hnav : forall env d,
             currentMediaInfo (handleNavigate env d s) = currentMediaInfo s).
  { intros env d. unfold handleNavigate.
    destruct (_ || _); [reflexivity |].
    destruct (onNavigate (c_props env)); reflexivity. }
  destruct e as [p | k o | d | | key]; simpl.
  - reflexivity.
  - now elim (Hns k o).
  - destruct (rendered s); [apply Hnav | reflexivity].
  - now destruct (rendered s).
  - destruct (keydown s) as [env |]; [| reflexivity].
    unfold handleKeyDown.
    repeat (destruct (String.eqb key _); [apply Hnav || reflexivity |]).
    reflexivity.
Qed.

(** X9. Only a settling fetch changes the displayed metadata.  No other
    event does - in particular a change of [mediaId] does not clear it: the
    metadata of the previous identifier stays in the state while the new one
    loads. *)
Theorem metadata_changed_only_by_settlement :
  forall (s : State) (e : Event),
    (forall k o, e <> Settle k o) ->
    currentMediaInfo (step s e) = currentMediaInfo s.
Proof.
  intros s e Hns. unfold step.
  destruct (commit_shape s (handle s e)) as (b & k & -> & _). simpl.
  rewrite <- (handle_info s e Hns).
  destruct (fetch_deps_changed _ _); [| reflexivity].
  now destruct (fetchEffect_frame (handle s e)) as (_ & -> & _).
Qed.

Lemma metadata_changed_only_by_settlement_witness :
  currentMediaInfo
    (step (run (mount (sample_props "A")) [Settle 0 (Fulfilled (sample_info "A"))])
          (Render (sample_props "B")))
  = Some (sample_info "A").
Proof.
  apply (metadata_changed_only_by_settlement
           (run (mount (sample_props "A")) [Settle 0 (Fulfilled (sample_info "A"))])
           (Render (sample_props "B"))).
  discriminate.
Defined.

Lemma loading_implies_pending_step :
  forall s e,
    (isLoading s = true -> pending s <> []) ->
    isLoading (step s e) = true -> pending (step s e) <> [].
Proof.
  intros s e H.
  destruct e as [p | k o | d | | key].
  - destruct (step_render_fields s p) as (-> & -> & _).
    destruct (fetch_deps_changed (props s) p); [| exact H].
    destruct (fetchEffect_cases (setProps p s)) as [(m & _ & _ & ->) | (_ & ->)];
      [| exact H].
    simpl. intros _ E. now destruct (pending s).
  - assert (Hnr : forall q, Settle k o <> Render q) by discriminate.
    destruct (step_no_render s _ Hnr) as (_ & _ & _ & -> & -> & _).
    simpl. destruct (nth_error (pending s) k); [| exact H].
    destruct o; discriminate.
  - assert (Hnr : forall q, Click d <> Render q) by discriminate.
    destruct (step_no_render s _ Hnr) as (_ & _ & _ & -> & -> & _).
    destruct (handle_user_event s (Click d)) as (-> & ->);
      [discriminate | discriminate | exact H].
  - assert (Hnr : forall q, ClickClose <> Render q) by discriminate.
    destruct (step_no_render s _ Hnr) as (_ & _ & _ & -> & -> & _).
    destruct (handle_user_event s ClickClose) as (-> & ->);
      [discriminate | discriminate | exact H].
  - assert (Hnr : forall q, KeyDown key <> Render q) by discriminate.
    destruct (step_no_render s _ Hnr) as (_ & _ & _ & -> & -> & _).
    destruct (handle_user_event s (KeyDown key)) as (-> & ->);
      [discriminate | discriminate | exact H].
Qed.

(** X10. In every reachable state, a raised [isLoading] has a pending fetch
    behind it: the spinner is never shown without a fetch whose settlement
    will lower it. *)
Theorem loading_implies_pending_fetch :
  forall (p : Props) (es : list Event),
    isLoading (run (mount p) es) = true ->
    pending (run (mount p) es) <> [].
Proof.
  intros p es.
  assert (H0 : isLoading (mount p) = true -> pending (mount p) <> []).
  { unfold mount.
    set (s0 := scrollEffect (mkState p (-1) None false [] false None [])).
    change (isLoading (keyboardEffect (fetchEffect s0)))
      with (isLoading (fetchEffect s0)).
    change (pending (keyboardEffect (fetchEffect s0)))
      with (pending (fetchEffect s0)).
    destruct (fetchEffect_cases s0) as [(m & _ & _ & ->) | (_ & ->)];
      simpl; discriminate. }
  revert H0. generalize (mount p). induction es as [| e es IH]; intros s H.
  - exact H.
  - rewrite run_cons. apply IH. now apply loading_implies_pending_step.
Qed.

Lemma loading_implies_pending_fetch_witness :
  isLoading (run (mount (sample_props "A")) [Click Next]) = true
  /\ pending (run (mount (sample_props "A")) [Click Next]) <> [].
Proof.
  split; [reflexivity |].
  apply (loading_implies_pending_fetch (sample_props "A") [Click Next]).
  reflexivity.
Defined.

(** ** Bounds of the stored index *)





Example navigation_from_stale_index :
  currentIndex
    (run (mount (sample_props "C"))
         [Render (mkProps None 0 true (mkArray 1 ["A"%string]) None)])
  = 2
  /\ currentIndex
       (run (mount (sample_props "C"))
            [Render (mkProps None 0 true (mkArray 1 ["A"%string]) None);
             KeyDown "ArrowRight"])
     = 0.
Proof.
  split; reflexivity.
Qed.

(** ** The rendered element *)




(** ** Callbacks captured by the listener *)

(** X13. A render that changes neither [isOpen], nor [mediaId], nor the array
    reference leaves the listener bound earlier in place, so the keyboard
    keeps calling the callbacks of that earlier render: Escape reaches the
    [onClose] the listener captured, not the one just passed. *)
Theorem listener_keeps_captured_callbacks :
  forall (s : State) (p : Props) (env : Closure),
    keydown s = Some env ->
    isOpen p = isOpen (props s) ->
    mediaId p = mediaId (props s) ->
    same_array (allMediaIds (props s)) (allMediaIds p) = true ->
    keydown (step s (Render p)) = Some env
    /\ step (step s (Render p)) (KeyDown "Escape")
       = call (CloseCall (onClose (c_props env))) (step s (Render p)).
Proof.
  intros s p env Hk Ho Hm Ha.
  assert (F : fetch_deps_changed (props s) p = false).
  { unfold fetch_deps_changed. now rewrite Hm, same_id_refl, Ha. }
  assert (K : keydown (step s (Render p)) = Some env).
  { rewrite step_listener_exact.
    unfold keyboard_deps_changed.
    rewrite (step_render_props s p), Ho, Bool.eqb_reflx, Ha.
    destruct (step_render_fields s p) as (_ & _ & -> & _). rewrite F.
    simpl. now rewrite Z.eqb_refl. }
  split; [exact K |].
  unfold step at 1. unfold handle. rewrite K.
  unfold handleKeyDown. simpl. now apply commit_idle.
Qed.

Lemma listener_keeps_captured_callbacks_witness :
  keydown (mount (sample_props "B")) = Some (mkClosure (sample_props "B") 1)
  /\ calls
       (run (mount (sample_props "B"))
            [Render (mkProps (Some "B"%string) 5 true sample_ids None);
             KeyDown "Escape"; ClickClose])
     = [CloseCall 0; CloseCall 5].
Proof.
  split; [reflexivity |].
  pose proof (listener_keeps_captured_callbacks
                (mount (sample_props "B"))
                (mkProps (Some "B"%string) 5 true sample_ids None)
                (mkClosure (sample_props "B") 1)
                eq_refl eq_refl eq_refl eq_refl) as (_ & H).
  change (run (mount (sample_props "B"))
              [Render (mkProps (Some "B"%string) 5 true sample_ids None);
               KeyDown "Escape"; ClickClose])
    with (step
            (step (step (mount (sample_props "B"))
                        (Render (mkProps (Some "B"%string) 5 true sample_ids None)))
                  (KeyDown "Escape"))
            ClickClose).
  rewrite H. reflexivity.
Defined.

(** ** Repeated navigation *)

Lemma newIndex_shift :
  forall i d len,
    0 <= i < len -> newIndex i d len = (i + shift d 1) mod len.
Proof.
  intros i d len H. destruct d; cbn [shift].
  - rewrite (newIndex_prev i len H).
    replace (i - 1 + len) with (i + -1 + 1 * len) by lia.
    apply Z.mod_add. lia.
  - now rewrite (newIndex_next i len H).
Qed.

Lemma shift_succ : forall d k, shift d (S k) = shift d 1 + shift d k.
Proof.
  intros d k. destruct d; unfold shift; lia.
Qed.

Lemma click_self_managed :
  forall s d,
    rendered s = true ->
    onNavigate (props s) = None ->
    0 <= currentIndex s < JS.length (elems (allMediaIds (props s))) ->
    props (step s (Click d)) = props s
    /\ currentIndex (step s (Click d))
       = newIndex (currentIndex s) d (JS.length (elems (allMediaIds (props s)))).
Proof.
  intros s d Hr Hn Hi.
  assert (Hcall : navigate_call s (Click d)
                  = Some (mkClosure (props s) (currentIndex s), d)).
  { simpl. now rewrite Hr. }
  destruct (step_navigate_call s _ _ _ Hcall) as (-> & -> & _).
  rewrite handleNavigate_possible; simpl; try lia.
  rewrite Hn. now split.
Qed.

Lemma clicks_shift :
  forall d k s,
    rendered s = true ->
    onNavigate (props s) = None ->
    0 <= currentIndex s < JS.length (elems (allMediaIds (props s))) ->
    currentIndex (run s (repeat (Click d) k))
    = (currentIndex s + shift d k) mod JS.length (elems (allMediaIds (props s))).
Proof.
  intros d. induction k as [| k IH]; intros s Hr Hn Hi.
  - simpl. replace (shift d 0) with 0 by now destruct d.
    rewrite Z.add_0_r. symmetry. apply Z.mod_small. lia.
  - cbn [repeat]. rewrite run_cons.
    destruct (click_self_managed s d Hr Hn Hi) as (Hp & Hidx).
    assert (Hr' : rendered (step s (Click d)) = true)
      by (unfold rendered in *; now rewrite Hp).
    assert (Hi' : 0 <= currentIndex (step s (Click d))
                  < JS.length (elems (allMediaIds (props (step s (Click d)))))).
    { rewrite Hp, Hidx. apply newIndex_in_range; lia. }
    rewrite (IH (step s (Click d)) Hr' (eq_trans (f_equal onNavigate Hp) Hn) Hi').
    rewrite Hp, Hidx, (newIndex_shift _ d _ Hi), Z.add_mod_idemp_l by lia.
    f_equal. rewrite (shift_succ d k). lia.
Qed.

(** X14. Without a delegate, [k] clicks on the same arrow move the stored
    index by [k] positions around the collection: to
    [(currentIndex + k) mod length] for next, [(currentIndex - k) mod length]
    for prev; as many clicks as the collection has elements come back to the
    starting index. *)
Theorem repeated_navigation_cycles :
  forall (s : State) (d : Direction),
    rendered s = true ->
    onNavigate (props s) = None ->
    0 <= currentIndex s < JS.length (elems (allMediaIds (props s))) ->
    (forall k : nat,
        currentIndex (run s (repeat (Click d) k))
        = (currentIndex s + shift d k)
            mod JS.length (elems (allMediaIds (props s))))
    /\ currentIndex
         (run s (repeat (Click d)
                        (List.length (elems (allMediaIds (props s))))))
       = currentIndex s.
Proof.
  intros s d Hr Hn Hi. split.
  - intro k. now apply clicks_shift.
  - rewrite (clicks_shift d _ s Hr Hn Hi). unfold JS.length in *.
    set (len := Z.of_nat (List.length (elems (allMediaIds (props s))))) in *.
    destruct d; unfold shift; fold len.
    + replace (currentIndex s + - len) with (currentIndex s + -1 * len) by lia.
      rewrite Z.mod_add by lia. apply Z.mod_small. lia.
    + replace (currentIndex s + len) with (currentIndex s + 1 * len) by lia.
      rewrite Z.mod_add by lia. apply Z.mod_small. lia.
Qed.

Lemma repeated_navigation_cycles_witness :
  rendered (mount (sample_props "B")) = true
  /\ currentIndex (run (mount (sample_props "B")) (repeat (Click Prev) 2)) = 2
  /\ currentIndex (run (mount (sample_props "B")) (repeat (Click Prev) 3)) = 1.
Proof.
  split; [reflexivity |].
  assert (Hi : 0 <= currentIndex (mount (sample_props "B"))
               < JS.length (elems (allMediaIds (props (mount (sample_props "B"))))))
    by (vm_compute; split; [discriminate | reflexivity]).
  pose proof (repeated_navigation_cycles
                (mount (sample_props "B")) Prev eq_refl eq_refl Hi) as (H1 & H2).
  split; [exact (H1 2%nat) | exact H2].
Defined.

Lemma newIndex_inverse :
  forall i d len,
    0 <= i < len -> newIndex (newIndex i d len) (opposite d) len = i.
Proof.
  intros i d len H.
  pose proof (newIndex_bounds i len H d) as Hb.
  destruct d; cbn [opposite].
  - rewrite (newIndex_next_value _ len Hb), (newIndex_prev_value i len H).
    destruct (Z.eqb_spec i 0) as [-> | Hne].
    + now rewrite Z.eqb_refl.
    + destruct (Z.eqb_spec (i - 1) (len - 1)); lia.
  - rewrite (newIndex_prev_value _ len Hb), (newIndex_next_value i len H).
    destruct (Z.eqb_spec i (len - 1)) as [-> | Hne].
    + reflexivity.
    + destruct (Z.eqb_spec (i + 1) 0); lia.
Qed.

(** X15. On the indices of a non-empty collection each direction undoes the
    other (prev then next as well as next then prev), so one navigation step
    never sends two different indices to the same one. *)
Theorem navigation_step_is_a_bijection :
  forall (i len : Z) (d : Direction),
    0 <= i < len ->
    newIndex (newIndex i d len) (opposite d) len = i
    /\ (forall j,
          0 <= j < len -> newIndex i d len = newIndex j d len -> i = j).
Proof.
  intros i len d H. split.
  - now apply newIndex_inverse.
  - intros j Hj E.
    rewrite <- (newIndex_inverse i d len H), <- (newIndex_inverse j d len Hj).
    now rewrite E.
Qed.

Lemma navigation_step_is_a_bijection_witness :
  0 <= 0 < 3 /\ newIndex (newIndex 0 Prev 3) (opposite Prev) 3 = 0.
Proof.
  assert (H : 0 <= 0 < 3) by lia.
  split; [exact H |].
  exact (proj1 (navigation_step_is_a_bijection 0 3 Prev H)).
Defined.

(** ** Resolution and lookup *)

Lemma get_nth :
  forall xs j x,
    JS.get xs j = Some x -> 0 <= j /\ nth_error xs (Z.to_nat j) = Some x.
Proof.
  intros xs j x H. unfold JS.get in H.
  destruct (Z.ltb_spec j 0); [discriminate |]. now split.
Qed.

(** X16. Looking up and resolving are inverse to each other: for the
    identifier found at position [n], [indexOf] returns a position not after
    [n] that holds the same identifier, and exactly [n] when the identifiers
    of the collection are distinct. *)
Theorem indexOf_get_round_trip :
  forall (xs : list string) (n : nat) (x : string),
    nth_error xs n = Some x ->
    0 <= JS.indexOf xs x <= Z.of_nat n
    /\ JS.get xs (JS.indexOf xs x) = Some x
    /\ (NoDup xs -> JS.indexOf xs x = Z.of_nat n).
Proof.
  intros xs n x Hn.
  assert (Hin : In x xs) by (eapply nth_error_In; eauto).
  destruct (indexOf_from_present xs x 0 Hin) as (n' & Hv & Hn' & Hfirst).
  assert (Hle : (n' <= n)%nat).
  { destruct (Nat.le_gt_cases n' n) as [L | G]; [exact L |].
    elim (Hfirst n G). exact Hn. }
  split; [unfold JS.indexOf; rewrite Hv; lia |].
  split.
  - apply indexOf_get. unfold JS.indexOf. rewrite Hv. lia.
  - intro Hnd. now apply indexOf_nodup.
Qed.

Lemma indexOf_get_round_trip_witness :
  nth_error ["A"; "B"; "A"]%string 2 = Some "A"%string
  /\ JS.indexOf ["A"; "B"; "A"]%string "A" = 0
  /\ JS.get ["A"; "B"; "A"]%string (JS.indexOf ["A"; "B"; "A"]%string "A")
     = Some "A"%string.
Proof.
  split; [reflexivity |].
  split; [reflexivity |].
  exact (proj1 (proj2 (indexOf_get_round_trip
                         ["A"; "B"; "A"]%string 2 "A" eq_refl))).
Defined.

(** ** A delegate that answers the navigation *)

Lemma step_render_calls :
  forall s p, calls (step s (Render p)) = calls s.
Proof.
  intros s p. unfold step.
  destruct (commit_shape s (handle s (Render p))) as (b & k & -> & _).
  cbn [handle setProps props]. simpl.
  destruct (fetch_deps_changed (props s) p); [| reflexivity].
  now destruct (fetchEffect_frame (setProps p s)) as (_ & _ & _ & _ & ->).
Qed.

(** X17. The two navigation modes agree.  In a collection of distinct
    identifiers, when the delegate is called for a direction and the parent
    answers by passing the neighbouring identifier as [mediaId], the stored
    index ends on the very index that self-managed navigation computes, and
    that identifier is displayed. *)
Theorem delegated_navigation_round_trip :
  forall (s : State) (d : Direction) (h : nat) (m x : string),
    rendered s = true ->
    onNavigate (props s) = Some h ->
    NoDup (elems (allMediaIds (props s))) ->
    mediaId (props s) = Some m ->
    JS.get (elems (allMediaIds (props s))) (currentIndex s) = Some m ->
    JS.get (elems (allMediaIds (props s)))
           (newIndex (currentIndex s) d
                     (JS.length (elems (allMediaIds (props s)))))
    = Some x ->
    JS.truthy x = true ->
    currentIndex (run s [Click d; Render (with_mediaId x (props s))])
    = newIndex (currentIndex s) d (JS.length (elems (allMediaIds (props s))))
    /\ currentId (run s [Click d; Render (with_mediaId x (props s))]) = Some x
    /\ calls (run s [Click d; Render (with_mediaId x (props s))])
       = calls s ++ [NavigateCall h d].
Proof.
  intros s d h m x Hr Hn Hnd Hm Hcur Hnext Hx.
  set (ids := elems (allMediaIds (props s))) in *.
  set (j := newIndex (currentIndex s) d (JS.length ids)) in *.
  destruct (get_nth _ _ _ Hcur) as (Hi0 & Hnth).
  destruct (get_nth _ _ _ Hnext) as (Hj0 & Hnthj).
  assert (Hlen : currentIndex s < JS.length ids).
  { assert (Z.to_nat (currentIndex s) < List.length ids)%nat
      by (apply nth_error_Some; congruence).
    unfold JS.length. lia. }
  (* the click: the delegate is called, nothing else moves *)
  assert (H1 : step s (Click d) = call (NavigateCall h d) s).
  { unfold step, handle. rewrite Hr.
    rewrite handleNavigate_possible; cbn [c_props c_index]; fold ids; try lia.
    rewrite Hn. now apply commit_idle. }
  change (run s [Click d; Render (with_mediaId x (props s))])
    with (step (step s (Click d)) (Render (with_mediaId x (props s)))).
  rewrite H1.
  set (s1 := call (NavigateCall h d) s).
  set (p' := with_mediaId x (props s)).
  assert (Hidx : JS.indexOf ids x = j).
  { rewrite (indexOf_nodup ids x _ Hnd Hnthj). lia. }
  (* the answer of the parent *)
  assert (Hres : currentIndex (step s1 (Render p')) = JS.indexOf ids x).
  { destruct (step_render_fields s1 p') as (_ & _ & -> & _).
    destruct (fetch_deps_changed (props s1) p') eqn:F.
    - rewrite (fetchEffect_runs (setProps p' s1) x); try reflexivity; auto.
      cbn [props setProps p' with_mediaId allMediaIds]. fold ids.
      intro E. rewrite E in Hnthj. now destruct (Z.to_nat j).
    - apply fetch_deps_changed_false in F. destruct F as [F _].
      cbn [props s1 call p' with_mediaId mediaId] in F.
      rewrite Hm in F. inversion F. subst m.
      cbn [currentIndex setProps s1 call].
      rewrite (indexOf_nodup ids x _ Hnd Hnth). lia. }
  split; [now rewrite Hres |].
  split.
  - apply currentId_resolved; rewrite ?step_render_props; auto.
  - now rewrite step_render_calls.
Qed.

Lemma delegated_navigation_round_trip_witness :
  rendered (mount (mkProps (Some "C"%string) 0 true sample_ids (Some 4%nat)))
  = true
  /\ currentIndex
       (run (mount (mkProps (Some "C"%string) 0 true sample_ids (Some 4%nat)))
            [Click Next;
             Render (with_mediaId
                       "A"
                       (props (mount (mkProps (Some "C"%string) 0 true
                                              sample_ids (Some 4%nat)))))])
     = 0
  /\ currentIndex
       (run (mount (sample_props "C")) [Click Next])
     = 0.
Proof.
  split; [reflexivity |].
  split; [| reflexivity].
  assert (Hnd : NoDup (elems (allMediaIds
                                (props (mount (mkProps (Some "C"%string) 0 true
                                                       sample_ids
                                                       (Some 4%nat))))))).
  { repeat constructor; simpl; intuition discriminate. }
  exact (proj1 (delegated_navigation_round_trip
                  (mount (mkProps (Some "C"%string) 0 true sample_ids
                                  (Some 4%nat)))
                  Next 4 "C" "A" eq_refl eq_refl Hnd eq_refl eq_refl eq_refl
                  eq_refl)).
Defined.

(** ** What the classification depends on *)







